(** * User Profile API: a shallow embedding of [app.py]

    The service is a Flask-RESTful application over one SQLAlchemy model,
    [User], stored in an SQLite table.  The embedding follows the source:

    - the object returned by [request.get_json()] is a Python value
      ([value]); handlers test it with Python truthiness, [dict.get],
      [in] and subscripting, each of which can raise;
    - the table is the list of its rows in rowid order, with the three
      column constraints of the model (primary key, [nullable=False],
      [unique=True]) checked when a statement is flushed; a rowid is a signed
      64-bit integer, and a Python int outside that range cannot be bound to a
      statement;
    - a handler maps the parsed body and the table to an outcome (the
      returned [(dict, code)] pair, or an exception that leaves the
      handler) and the table after the request.

    The handlers are entered with what [request.get_json()] returned and, for
    [/users/<int:id>], with the integer of the path, which the converter does
    not bound.  What [request.get_json()] does with a request that carries no
    JSON body depends on the Flask version and is not modelled. *)

From Stdlib Require Import ZArith List String Ascii Bool Lia.
From Stdlib Require Import DecimalString Permutation.
Import ListNotations.

Open Scope string_scope.
Open Scope list_scope.
Open Scope Z_scope.

Set Warnings "-register-all".

(** ** Python values of a parsed JSON body *)

(** [json.loads] yields [None], [bool], [int], [str], [list] and [dict].
    Non-integral JSON numbers ([float]) are not modelled. A [dict] is kept as
    an association list read at its first binding of a key. *)
Inductive value : Type :=
| VNone
| VBool (b : bool)
| VInt (z : Z)
| VStr (s : string)
| VList (items : list value)
| VDict (members : list (string * value)).

(** Truth value testing, the [not x] of the handlers. *)
Definition truthy (v : value) : bool :=
  match v with
  | VNone => false
  | VBool b => b
  | VInt z => negb (z =? 0)
  | VStr s => negb (s =? "")%string
  | VList items => match items with [] => false | _ => true end
  | VDict members => match members with [] => false | _ => true end
  end.

Fixpoint dict_lookup (d : list (string * value)) (k : string) : option value :=
  match d with
  | [] => None
  | (k', v) :: d' => if (k' =? k)%string then Some v else dict_lookup d' k
  end.

(** ** Exceptions *)

Inductive exn : Type :=
| AttributeError   (* [data.get] on a value that is not a dict *)
| TypeError        (* [k in data] or [data[k]] on an unsuitable value *)
| KeyError         (* [data[k]] with [k] missing from a dict *)
| IntegrityError   (* sqlalchemy.exc.IntegrityError: a constraint failed *)
| StatementError   (* any other database error: a parameter that cannot be bound,
                      or no rowid left for a new row *)
| ObjectDeletedError (* refreshing a loaded object whose row is gone *)
| OverflowError.   (* a primary key outside the 64-bit range bound to a SELECT *)

Definition exc (A : Type) : Type := (exn + A)%type.

Definition ret {A : Type} (a : A) : exc A := inr a.

Definition bind_exc {A B : Type} (m : exc A) (k : A -> exc B) : exc B :=
  match m with
  | inl e => inl e
  | inr a => k a
  end.

Notation "x <- m ;; k" := (bind_exc m (fun x => k))
  (at level 61, m at next level, right associativity).

(** [data.get(k)]: only a dict has the method. *)
Definition method_get (data : value) (k : string) : exc value :=
  match data with
  | VDict d => ret (match dict_lookup d k with Some v => v | None => VNone end)
  | _ => inl AttributeError
  end.

(** [data[k]] with a string key. *)
Definition getitem (data : value) (k : string) : exc value :=
  match data with
  | VDict d => match dict_lookup d k with Some v => ret v | None => inl KeyError end
  | _ => inl TypeError
  end.

Definition is_str (k : string) (v : value) : bool :=
  match v with
  | VStr s => (s =? k)%string
  | _ => false
  end.

Definition is_substring (k s : string) : bool :=
  match String.index 0 k s with
  | Some _ => true
  | None => false
  end.

(** [k in data]: key membership for a dict, element membership for a list,
    substring test for a str; other values are not iterable. *)
Definition contains (k : string) (data : value) : exc bool :=
  match data with
  | VDict d => ret (match dict_lookup d k with Some _ => true | None => false end)
  | VList items => ret (existsb (is_str k) items)
  | VStr s => ret (is_substring k s)
  | _ => inl TypeError
  end.

(** ** The model class and its table *)

Record User : Type := mkUser { id : Z; name : string; email : string }.

Definition to_dict (u : User) : value :=
  VDict [("id", VInt (id u)); ("name", VStr (name u)); ("email", VStr (email u))].

(** The rows of table [user], in rowid order. *)
Definition table : Type := list User.

(** What SQLite stores for a Python value bound to a [VARCHAR] column (TEXT
    affinity): [None] is NULL, a str is itself, an int (and so a bool) in the
    64-bit range is converted to its decimal text, anything else cannot be
    bound. *)
Inductive param : Type :=
| PNull
| PText (s : string)
| PUnsupported.

Definition int64_min : Z := - 2 ^ 63.
Definition int64_max : Z := 2 ^ 63 - 1.

Definition in_int64 (z : Z) : bool := (int64_min <=? z) && (z <=? int64_max).

Definition decimal (z : Z) : string := NilZero.string_of_int (Z.to_int z).

Definition bind_param (v : value) : param :=
  match v with
  | VNone => PNull
  | VStr s => PText s
  | VBool b => PText (if b then "1" else "0")
  | VInt z => if in_int64 z then PText (decimal z) else PUnsupported
  | VList _ | VDict _ => PUnsupported
  end.

(** The row with primary key [i], the result of the SELECT. *)
Definition find_row (i : Z) (t : table) : option User :=
  find (fun u => id u =? i) t.

(** [User.query.get(id)]: the key is bound to the SELECT as a signed 64-bit
    integer, so an [id] outside that range raises OverflowError before any row
    is read. *)
Definition User_query_get (i : Z) (t : table) : exc (option User) :=
  if in_int64 i then ret (find_row i t) else inl OverflowError.

(** The user [User.query.get(id)] returns, when it returns one. *)
Definition query_get (i : Z) (t : table) : option User :=
  match User_query_get i t with
  | inr r => r
  | inl _ => None
  end.

(** [User.query.all()] *)
Definition query_all (t : table) : list User := t.

(** [User.query.first()] *)
Definition query_first (t : table) : option User := hd_error t.

Fixpoint max_rowid (t : table) : option Z :=
  match t with
  | [] => None
  | u :: t' => Some (match max_rowid t' with
                     | None => id u
                     | Some m => Z.max (id u) m
                     end)
  end.

(** One more than the largest rowid in the table, and 1 in an empty table. *)
Definition next_rowid (t : table) : Z :=
  match max_rowid t with
  | None => 1
  | Some m => m + 1
  end.

Definition unused_rowid (ids : list Z) (z : Z) : bool :=
  negb (existsb (Z.eqb z) ids).

(** When the largest rowid is already [2^63 - 1] SQLite draws random positive
    rowids until one is unused, and gives up after a run of draws that are all
    in use.  The draw is not a function of anything the program reads:
    [random_rowid] stands for its outcome and is sealed, so that nothing is
    known of it but what SQLite guarantees, [random_rowid_spec]. *)
Definition random_rowid_sealed (ids : list Z) :
  { r : option Z |
    match r with
    | Some z => 0 < z <= int64_max /\ ~ In z ids
    | None => True
    end }.
Proof.
  destruct (find (unused_rowid ids)
                 (map Z.of_nat (seq 1 (S (List.length ids))))) as [z|] eqn:Hf.
  - destruct (z <=? int64_max) eqn:Hle.
    + exists (Some z). apply find_some in Hf. destruct Hf as [Hin Hun].
      apply in_map_iff in Hin. destruct Hin as (k & <- & Hk).
      apply in_seq in Hk. apply Z.leb_le in Hle.
      split; [lia|].
      intros Hids. unfold unused_rowid in Hun.
      apply negb_true_iff in Hun.
      assert (existsb (Z.eqb (Z.of_nat k)) ids = true) as Hex.
      { apply existsb_exists. exists (Z.of_nat k). split; [assumption|].
        apply Z.eqb_refl. }
      congruence.
    + exists None. exact I.
  - exists None. exact I.
Qed.

Definition random_rowid (ids : list Z) : option Z :=
  proj1_sig (random_rowid_sealed ids).

(** An [INTEGER PRIMARY KEY] column without AUTOINCREMENT: the new rowid is one
    more than the largest rowid in the table (1 in an empty table) as long as
    that is a 64-bit integer, and a random unused one otherwise. *)
Definition assign_rowid (t : table) : option Z :=
  if in_int64 (next_rowid t) then Some (next_rowid t)
  else random_rowid (map id t).

(** The table with the row [u] put at its place in rowid order: after the rows
    of smaller rowid. *)
Fixpoint insert_by_rowid (u : User) (t : table) : table :=
  match t with
  | [] => [u]
  | r :: t' => if id u <? id r then u :: r :: t' else r :: insert_by_rowid u t'
  end.

Definition email_taken (e : string) (t : table) : bool :=
  existsb (fun u => (email u =? e)%string) t.

Definition email_taken_by_other (i : Z) (e : string) (t : table) : bool :=
  existsb (fun u => negb (id u =? i) && (email u =? e)%string) t.

(** INSERT of one row with the given name and email parameters. *)
Definition insert_row (n e : value) (t : table) : exc (User * table) :=
  match bind_param n, bind_param e with
  | PUnsupported, _ | _, PUnsupported => inl StatementError
  | PNull, _ | _, PNull => inl IntegrityError
  | PText n', PText e' =>
      if email_taken e' t then inl IntegrityError
      else match assign_rowid t with
           | Some i => let u := mkUser i n' e' in ret (u, insert_by_rowid u t)
           | None => inl StatementError
           end
  end.

Definition unsupported (p : option param) : bool :=
  match p with Some PUnsupported => true | _ => false end.

Definition is_null (p : option param) : bool :=
  match p with Some PNull => true | _ => false end.

Definition text_of (p : option param) (old : string) : string :=
  match p with Some (PText s) => s | _ => old end.

Definition collides (i : Z) (p : option param) (t : table) : bool :=
  match p with
  | Some (PText e) => email_taken_by_other i e t
  | _ => false
  end.

Definition set_fields (pn pe : option param) (u : User) : User :=
  mkUser (id u) (text_of pn (name u)) (text_of pe (email u)).

(** UPDATE of the row with primary key [i]; [n] and [e] are the attributes
    assigned on the loaded object ([None]: not assigned). *)
Definition update_row (i : Z) (n e : option value) (t : table) : exc table :=
  let pn := option_map bind_param n in
  let pe := option_map bind_param e in
  if unsupported pn || unsupported pe then inl StatementError
  else if is_null pn || is_null pe then inl IntegrityError
  else if collides i pe t then inl IntegrityError
  else ret (map (fun u => if id u =? i then set_fields pn pe u else u) t).

(** DELETE of the row with primary key [i]. *)
Definition delete_row (i : Z) (t : table) : table :=
  filter (fun u => negb (id u =? i)) t.

(** [db.session.bulk_save_objects]: the rows are inserted in order, in one
    transaction. *)
Fixpoint bulk_save_objects (rows : list (string * string)) (t : table) : exc table :=
  match rows with
  | [] => ret t
  | (n, e) :: rows' =>
      r <- insert_row (VStr n) (VStr e) t ;;
      bulk_save_objects rows' (snd r)
  end.

(** ** DB init + sample data *)

Definition samples : list (string * string) :=
  [ ("Aarav Kumar", "aarav.kumar@example.com");
    ("Priya Sharma", "priya.sharma@example.com");
    ("Rohan Patel", "rohan.patel@example.com");
    ("Sneha Reddy", "sneha.reddy@example.com");
    ("Vikram Singh", "vikram.singh@example.com");
    ("Meera Iyer", "meera.iyer@example.com") ].

Definition create_db_with_samples (t : table) : exc table :=
  match query_first t with
  | None => bulk_save_objects samples t
  | Some _ => ret t
  end.

(** ** Resources *)

(** What a handler does: it returns a body and a status code, or an exception
    leaves it. *)
Inductive outcome : Type :=
| Return (body : value) (code : Z)
| Raise (e : exn).

Definition msg (status : Z) (message : string) : value :=
  VDict [("status", VInt status); ("message", VStr message)].

Definition msg_data (status : Z) (message : string) (data : value) : value :=
  VDict [("status", VInt status); ("message", VStr message); ("data", data)].

Definition missing_fields : value :=
  msg 400 "Missing 'name' or 'email' in request body".
Definition email_exists : value := msg 400 "Email already exists".
Definition not_found : value := msg 404 "User not found".
Definition body_required : value := msg 400 "Request body required".

Module UsersList.

Definition get (t : table) : outcome * table :=
  (Return (VDict [("status", VInt 200); ("data", VList (map to_dict (query_all t)))]) 200, t).

(** [not data or not data.get("name") or not data.get("email")] *)
Definition invalid (data : value) : exc bool :=
  if negb (truthy data) then ret true
  else
    n <- method_get data "name" ;;
    if negb (truthy n) then ret true
    else
      e <- method_get data "email" ;;
      ret (negb (truthy e)).

Definition post (data : value) (t : table) : outcome * table :=
  match invalid data with
  | inl x => (Raise x, t)
  | inr true => (Return missing_fields 400, t)
  | inr false =>
      match (n <- getitem data "name" ;; e <- getitem data "email" ;; ret (n, e)) with
      | inl x => (Raise x, t)
      | inr (n, e) =>
          match insert_row n e t with
          | inl IntegrityError => (Return email_exists 400, t)
          | inl x => (Raise x, t)
          | inr (new_user, t') =>
              (Return (msg_data 201 "User created" (to_dict new_user)) 201, t')
          end
      end
  end.

End UsersList.

Module UserResource.

Definition get (i : Z) (t : table) : outcome * table :=
  match User_query_get i t with
  | inl x => (Raise x, t)
  | inr None => (Return not_found 404, t)
  | inr (Some user) =>
      (Return (VDict [("status", VInt 200); ("data", to_dict user)]) 200, t)
  end.

(** The attribute assignments of [put]: the value given to [user.name] and
    to [user.email], when the key is [in] the body. *)
Definition assignments (data : value) : exc (option value * option value) :=
  has_name <- contains "name" data ;;
  n <- (if has_name : bool then v <- getitem data "name" ;; ret (Some v) else ret None) ;;
  has_email <- contains "email" data ;;
  e <- (if has_email : bool then v <- getitem data "email" ;; ret (Some v) else ret None) ;;
  ret (n, e).

Definition put (i : Z) (data : value) (t : table) : outcome * table :=
  match User_query_get i t with
  | inl x => (Raise x, t)
  | inr None => (Return not_found 404, t)
  | inr (Some _) =>
      if negb (truthy data) then (Return body_required 400, t)
      else
        match assignments data with
        | inl x => (Raise x, t)
        | inr (n, e) =>
            match update_row i n e t with
            | inl IntegrityError => (Return email_exists 400, t)
            | inl x => (Raise x, t)
            | inr t' =>
                match find_row i t' with
                | Some user => (Return (msg_data 200 "User updated" (to_dict user)) 200, t')
                | None => (Raise ObjectDeletedError, t')
                end
            end
        end
  end.

Definition delete (i : Z) (t : table) : outcome * table :=
  match User_query_get i t with
  | inl x => (Raise x, t)
  | inr None => (Return not_found 404, t)
  | inr (Some _) => (Return (msg 200 "User deleted") 200, delete_row i t)
  end.

End UserResource.

(** ** Requests against the two resources *)

Inductive request : Type :=
| GET_users
| POST_users (data : value)
| GET_user (i : Z)
| PUT_user (i : Z) (data : value)
| DELETE_user (i : Z).

Definition handle (r : request) (t : table) : outcome * table :=
  match r with
  | GET_users => UsersList.get t
  | POST_users data => UsersList.post data t
  | GET_user i => UserResource.get i t
  | PUT_user i data => UserResource.put i data t
  | DELETE_user i => UserResource.delete i t
  end.

(** The table after a sequence of requests. *)
Fixpoint run (rs : list request) (t : table) : table :=
  match rs with
  | [] => t
  | r :: rs' => run rs' (snd (handle r t))
  end.

(** The constraints the table declares: [id] is the primary key, an INTEGER
    column whose values are pairwise distinct signed 64-bit integers, and
    [email] is unique. *)
Definition rowids_ok (t : table) : Prop :=
  NoDup (map id t) /\ forall u, In u t -> in_int64 (id u) = true.

Definition table_ok (t : table) : Prop :=
  rowids_ok t /\ NoDup (map email t).



(** Every id of the table is positive, as the ids SQLite assigns from an empty
    table are. *)
Definition ids_positive (t : table) : Prop :=
  forall u, In u t -> 0 < id u.

(** The table of a fresh database once the module has been imported. *)
Definition seeded : table :=
  [ mkUser 1 "Aarav Kumar" "aarav.kumar@example.com";
    mkUser 2 "Priya Sharma" "priya.sharma@example.com";
    mkUser 3 "Rohan Patel" "rohan.patel@example.com";
    mkUser 4 "Sneha Reddy" "sneha.reddy@example.com";
    mkUser 5 "Vikram Singh" "vikram.singh@example.com";
    mkUser 6 "Meera Iyer" "meera.iyer@example.com" ].


(** * Properties *)

(** ** The storage layer *)

Lemma max_rowid_bound (t : table) (u : User) :
  In u t -> exists m, max_rowid t = Some m /\ id u <= m.
Proof.
  induction t as [|r t IH]; simpl; [tauto|].
  intros [->|Hin].
  - destruct (max_rowid t); eexists; split; try reflexivity; lia.
  - destruct (IH Hin) as (m & -> & Hm).
    eexists; split; [reflexivity|lia].
Qed.

Lemma next_rowid_above (t : table) (u : User) :
  In u t -> id u < next_rowid t.
Proof.
  intros Hin. unfold next_rowid.
  destruct (max_rowid_bound t u Hin) as (m & -> & Hm). lia.
Qed.

Lemma next_rowid_positive (t : table) :
  (forall u, In u t -> 0 < id u) -> 0 < next_rowid t.
Proof.
  intros Hpos. destruct t as [|r t].
  - reflexivity.
  - assert (Hr : In r (r :: t)) by (left; reflexivity).
    pose proof (next_rowid_above _ _ Hr). pose proof (Hpos _ Hr). lia.
Qed.

Lemma find_row_none (i : Z) (t : table) :
  find_row i t = None <-> ~ In i (map id t).
Proof.
  unfold find_row. induction t as [|r t IH]; simpl.
  - tauto.
  - destruct (Z.eqb_spec (id r) i) as [E|E].
    + split; [discriminate|]. intros H. exfalso. apply H. now left.
    + rewrite IH. intuition.
Qed.

Lemma find_row_some (i : Z) (t : table) (u : User) :
  find_row i t = Some u -> In u t /\ id u = i.
Proof.
  unfold find_row. intros H. apply find_some in H.
  destruct H as [Hin E]. split; [assumption|]. now apply Z.eqb_eq.
Qed.

Lemma in_int64_true (z : Z) :
  in_int64 z = true <-> int64_min <= z <= int64_max.
Proof.
  unfold in_int64. rewrite andb_true_iff, !Z.leb_le. tauto.
Qed.

Lemma random_rowid_spec (ids : list Z) (z : Z) :
  random_rowid ids = Some z -> 0 < z <= int64_max /\ ~ In z ids.
Proof.
  unfold random_rowid. destruct (random_rowid_sealed ids) as [r Hr]; simpl.
  intros ->. exact Hr.
Qed.

(** The rowid given to a new row is a 64-bit integer that no row has, and a
    positive one when the rowids of the table are positive. *)
Lemma assign_rowid_some (t : table) (i : Z) :
  assign_rowid t = Some i ->
  in_int64 i = true /\ ~ In i (map id t) /\ (ids_positive t -> 0 < i).
Proof.
  unfold assign_rowid. destruct (in_int64 (next_rowid t)) eqn:Hr; intros H.
  - inversion H; subst. split; [assumption|]. split.
    + intros Hin. apply in_map_iff in Hin. destruct Hin as (r & Hr' & Hin).
      pose proof (next_rowid_above _ _ Hin). lia.
    + apply next_rowid_positive.
  - apply random_rowid_spec in H. destruct H as [[H0 Hm] Hn].
    split; [|split; auto].
    apply in_int64_true. unfold int64_min. simpl. lia.
Qed.

Lemma assign_rowid_next (t : table) :
  in_int64 (next_rowid t) = true -> assign_rowid t = Some (next_rowid t).
Proof.
  intros H. unfold assign_rowid. now rewrite H.
Qed.

Lemma insert_by_rowid_perm (u : User) (t : table) :
  Permutation (insert_by_rowid u t) (u :: t).
Proof.
  induction t as [|r t IH]; simpl; [reflexivity|].
  destruct (id u <? id r); [reflexivity|].
  rewrite IH. apply perm_swap.
Qed.

Lemma insert_by_rowid_in (u : User) (t : table) (r : User) :
  In r (insert_by_rowid u t) <-> r = u \/ In r t.
Proof.
  split; intros H.
  - apply (Permutation_in _ (insert_by_rowid_perm u t)) in H.
    destruct H as [<-|H]; auto.
  - apply (Permutation_in _ (Permutation_sym (insert_by_rowid_perm u t))).
    destruct H as [->|H]; [now left|now right].
Qed.

Lemma insert_by_rowid_last (u : User) (t : table) :
  (forall r, In r t -> id r < id u) -> insert_by_rowid u t = t ++ [u].
Proof.
  induction t as [|r t IH]; simpl; intros H; [reflexivity|].
  assert (Hr : id r < id u) by (apply H; now left).
  destruct (Z.ltb_spec (id u) (id r)); [lia|].
  f_equal. apply IH. intros r' Hr'. apply H. now right.
Qed.

Lemma insert_by_rowid_split (u : User) (t : table) :
  exists t1 t2, t = t1 ++ t2 /\ insert_by_rowid u t = t1 ++ u :: t2.
Proof.
  induction t as [|r t IH]; simpl.
  - exists [], []. auto.
  - destruct (id u <? id r).
    + exists [], (r :: t). auto.
    + destruct IH as (t1 & t2 & -> & ->). exists (r :: t1), t2. auto.
Qed.

Lemma find_row_inserted (u : User) (t : table) :
  ~ In (id u) (map id t) -> find_row (id u) (insert_by_rowid u t) = Some u.
Proof.
  unfold find_row. induction t as [|r t IH]; simpl; intros H.
  - now rewrite Z.eqb_refl.
  - destruct (id u <? id r); simpl.
    + now rewrite Z.eqb_refl.
    + destruct (Z.eqb_spec (id r) (id u)) as [E|E].
      * exfalso. apply H. now left.
      * apply IH. intros Hin. apply H. now right.
Qed.

Lemma find_row_insert_other (j : Z) (u : User) (t : table) :
  j <> id u -> find_row j (insert_by_rowid u t) = find_row j t.
Proof.
  intros Hne. unfold find_row. induction t as [|r t IH]; simpl.
  - destruct (Z.eqb_spec (id u) j); [congruence|reflexivity].
  - destruct (id u <? id r); simpl.
    + destruct (Z.eqb_spec (id u) j); [congruence|reflexivity].
    + destruct (id r =? j); [reflexivity|exact IH].
Qed.

Lemma find_row_deleted (i : Z) (t : table) :
  find_row i (delete_row i t) = None.
Proof.
  unfold find_row, delete_row.
  induction t as [|r t IH]; simpl; [reflexivity|].
  destruct (Z.eqb_spec (id r) i) as [E|E]; simpl.
  - exact IH.
  - destruct (Z.eqb_spec (id r) i); [contradiction|exact IH].
Qed.

Lemma email_taken_false (e : string) (t : table) :
  email_taken e t = false <-> ~ In e (map email t).
Proof.
  unfold email_taken. induction t as [|r t IH]; simpl.
  - tauto.
  - rewrite orb_false_iff, IH.
    destruct (String.eqb_spec (email r) e); intuition congruence.
Qed.

Lemma email_taken_true (e : string) (t : table) :
  email_taken e t = true <-> exists u, In u t /\ email u = e.
Proof.
  unfold email_taken. rewrite existsb_exists.
  split; intros (u & Hin & H); exists u; split; auto.
  - now apply String.eqb_eq.
  - now apply String.eqb_eq.
Qed.

Lemma email_taken_by_other_true (i : Z) (e : string) (t : table) :
  email_taken_by_other i e t = true <->
  exists u, In u t /\ id u <> i /\ email u = e.
Proof.
  unfold email_taken_by_other. rewrite existsb_exists.
  split.
  - intros (u & Hin & H). apply andb_true_iff in H. destruct H as [H1 H2].
    exists u. repeat split; auto.
    + apply negb_true_iff in H1. now apply Z.eqb_neq.
    + now apply String.eqb_eq.
  - intros (u & Hin & H1 & H2). exists u. split; auto.
    apply andb_true_iff. split.
    + apply negb_true_iff. now apply Z.eqb_neq.
    + now apply String.eqb_eq.
Qed.

Lemma email_taken_by_other_false (i : Z) (e : string) (t : table) :
  email_taken_by_other i e t = false ->
  forall u, In u t -> id u <> i -> email u <> e.
Proof.
  intros H u Hin Hid He.
  assert (email_taken_by_other i e t = true) as H'.
  { apply email_taken_by_other_true. exists u. auto. }
  congruence.
Qed.

Lemma insert_row_inr (n e : value) (t : table) (u : User) (t' : table) :
  insert_row n e t = inr (u, t') ->
  exists n' e',
    bind_param n = PText n' /\ bind_param e = PText e' /\
    email_taken e' t = false /\
    assign_rowid t = Some (id u) /\ name u = n' /\ email u = e' /\
    t' = insert_by_rowid u t.
Proof.
  unfold insert_row, ret.
  destruct (bind_param n) as [|n'|], (bind_param e) as [|e'|]; try discriminate.
  destruct (email_taken e' t) eqn:Ht; [discriminate|].
  destruct (assign_rowid t) as [i|] eqn:Hi; [|discriminate].
  intros H. inversion H; subst. exists n', e'. simpl. auto 10.
Qed.

(** A created row: its rowid is a 64-bit integer no row had, positive when the
    rowids of the table are, and the table afterwards holds the rows it had
    and the new row. *)
Lemma insert_row_fresh (n e : value) (t : table) (u : User) (t' : table) :
  insert_row n e t = inr (u, t') ->
  in_int64 (id u) = true /\ ~ In (id u) (map id t) /\
  (ids_positive t -> 0 < id u) /\ t' = insert_by_rowid u t.
Proof.
  intros H. apply insert_row_inr in H.
  destruct H as (n' & e' & _ & _ & _ & Hi & _ & _ & ->).
  apply assign_rowid_some in Hi. tauto.
Qed.

Lemma update_row_inr (i : Z) (n e : option value) (t t' : table) :
  update_row i n e t = inr t' ->
  let pn := option_map bind_param n in
  let pe := option_map bind_param e in
  unsupported pn = false /\ unsupported pe = false /\
  is_null pn = false /\ is_null pe = false /\
  collides i pe t = false /\
  t' = map (fun u => if id u =? i then set_fields pn pe u else u) t.
Proof.
  unfold update_row, ret. cbv zeta.
  destruct (unsupported (option_map bind_param n) || unsupported (option_map bind_param e)) eqn:H1;
    [discriminate|].
  destruct (is_null (option_map bind_param n) || is_null (option_map bind_param e)) eqn:H2;
    [discriminate|].
  destruct (collides i (option_map bind_param e) t) eqn:H3; [discriminate|].
  apply orb_false_iff in H1. apply orb_false_iff in H2.
  intros H. inversion H. tauto.
Qed.

Lemma NoDup_map_filter {A B : Type} (g : A -> B) (f : A -> bool) (l : list A) :
  NoDup (map g l) -> NoDup (map g (filter f l)).
Proof.
  induction l as [|a l IH]; simpl; intros H; [constructor|].
  inversion H as [|? ? Hnotin Hnd]; subst.
  destruct (f a); simpl; [|auto].
  constructor; [|auto].
  intros Hin. apply Hnotin.
  apply in_map_iff in Hin. destruct Hin as (x & Hx & Hf).
  apply filter_In in Hf. apply in_map_iff. exists x. tauto.
Qed.

Lemma map_id_update (i : Z) (pn pe : option param) (t : table) :
  map id (map (fun u => if id u =? i then set_fields pn pe u else u) t) = map id t.
Proof.
  rewrite map_map. apply map_ext. intros u.
  destruct (id u =? i); reflexivity.
Qed.

Lemma update_identity_elsewhere (i : Z) (pn pe : option param) (t : table) :
  ~ In i (map id t) ->
  map (fun u => if id u =? i then set_fields pn pe u else u) t = t.
Proof.
  induction t as [|r t IH]; simpl; intros H; [reflexivity|].
  destruct (Z.eqb_spec (id r) i) as [E|E].
  - exfalso. apply H. now left.
  - f_equal. apply IH. intros Hin. apply H. now right.
Qed.

(** The row constraints survive each of the three statements. *)

Lemma insert_row_ok (n e : value) (t : table) (u : User) (t' : table) :
  table_ok t -> insert_row n e t = inr (u, t') -> table_ok t'.
Proof.
  intros [[Hid Hrange] Hemail] H.
  apply insert_row_inr in H.
  destruct H as (n' & e' & _ & _ & Hfree & Hi & _ & He & ->).
  apply assign_rowid_some in Hi. destruct Hi as (Hr & Hnew & _).
  apply email_taken_false in Hfree.
  pose proof (insert_by_rowid_perm u t) as Hperm.
  split; [split|].
  - apply (Permutation_NoDup (Permutation_sym (Permutation_map id Hperm))).
    simpl. now constructor.
  - intros r Hin. apply insert_by_rowid_in in Hin.
    destruct Hin as [->|Hin]; auto.
  - apply (Permutation_NoDup (Permutation_sym (Permutation_map email Hperm))).
    simpl. constructor; [now rewrite He|assumption].
Qed.

Lemma update_row_ok (i : Z) (n e : option value) (t t' : table) :
  table_ok t -> update_row i n e t = inr t' -> table_ok t'.
Proof.
  intros [[Hid Hrange] Hemail] H.
  apply update_row_inr in H. cbv zeta in H.
  destruct H as (_ & _ & _ & _ & Hcol & ->).
  set (pn := option_map bind_param n) in *.
  set (pe := option_map bind_param e) in *.
  split; [split; [now rewrite map_id_update|]|].
  { intros r Hin. apply in_map_iff in Hin. destruct Hin as (x & <- & Hx).
    destruct (id x =? i); [simpl|]; now apply Hrange. }
  clear Hrange.
  induction t as [|r t IH]; simpl; [constructor|].
  inversion Hid as [|? ? Hid1 Hid2]; subst.
  inversion Hemail as [|? ? Hem1 Hem2]; subst.
  destruct (Z.eqb_spec (id r) i) as [E|E].
  - rewrite update_identity_elsewhere by (rewrite <- E; assumption).
    constructor; [|assumption].
    unfold set_fields; simpl.
    destruct pe as [[|s|]|]; simpl; try assumption.
    intros Hin. apply in_map_iff in Hin. destruct Hin as (x & Hx & Hin).
    simpl in Hcol. apply orb_false_iff in Hcol. destruct Hcol as [_ Hcol].
    apply (email_taken_by_other_false _ _ _ Hcol x Hin); [|assumption].
    intros Ex. apply Hid1. rewrite E, <- Ex. now apply in_map.
  - constructor.
    + intros Hin. apply in_map_iff in Hin. destruct Hin as (x & Hx & Hin).
      apply in_map_iff in Hin. destruct Hin as (y & Hy & Hin). subst x.
      destruct (Z.eqb_spec (id y) i) as [Ey|Ey].
      * unfold set_fields in Hx; simpl in Hx.
        destruct pe as [[|s|]|]; simpl in Hx.
        -- apply Hem1. rewrite <- Hx. now apply in_map.
        -- simpl in Hcol. apply orb_false_iff in Hcol. destruct Hcol as [Hr _].
           apply andb_false_iff in Hr. destruct Hr as [Hr|Hr].
           ++ apply negb_false_iff in Hr. apply Z.eqb_eq in Hr. contradiction.
           ++ apply String.eqb_neq in Hr. congruence.
        -- apply Hem1. rewrite <- Hx. now apply in_map.
        -- apply Hem1. rewrite <- Hx. now apply in_map.
      * apply Hem1. rewrite <- Hx. now apply in_map.
    + apply IH; try assumption.
      destruct pe as [[|s|]|]; simpl in *; try reflexivity.
      apply orb_false_iff in Hcol. tauto.
Qed.

Lemma delete_row_ok (i : Z) (t : table) :
  table_ok t -> table_ok (delete_row i t).
Proof.
  intros [[Hid Hrange] Hemail]. split; [split|].
  - now apply NoDup_map_filter.
  - intros r Hin. apply filter_In in Hin. now apply Hrange.
  - now apply NoDup_map_filter.
Qed.

(** ** The handlers keep the table constraints *)

Lemma post_ok (data : value) (t : table) :
  table_ok t -> table_ok (snd (UsersList.post data t)).
Proof.
  intros Hok. unfold UsersList.post.
  destruct (UsersList.invalid data) as [x|[|]]; simpl; try assumption.
  destruct (n <- getitem data "name" ;; e <- getitem data "email" ;; ret (n, e))
    as [x|[n e]]; simpl; try assumption.
  destruct (insert_row n e t) as [x|[u t']] eqn:Hins.
  - destruct x; assumption.
  - simpl. eapply insert_row_ok; eassumption.
Qed.

Lemma put_ok (i : Z) (data : value) (t : table) :
  table_ok t -> table_ok (snd (UserResource.put i data t)).
Proof.
  intros Hok. unfold UserResource.put, User_query_get.
  destruct (in_int64 i); simpl; try assumption.
  destruct (find_row i t); simpl; try assumption.
  destruct (negb (truthy data)); simpl; try assumption.
  destruct (UserResource.assignments data) as [x|[n e]]; simpl; try assumption.
  destruct (update_row i n e t) as [x|t'] eqn:Hupd.
  - destruct x; assumption.
  - pose proof (update_row_ok _ _ _ _ _ Hok Hupd).
    destruct (find_row i t'); assumption.
Qed.

Lemma delete_ok (i : Z) (t : table) :
  table_ok t -> table_ok (snd (UserResource.delete i t)).
Proof.
  intros Hok. unfold UserResource.delete, User_query_get.
  destruct (in_int64 i); simpl; try assumption.
  destruct (find_row i t); simpl; try assumption.
  now apply delete_row_ok.
Qed.

Lemma handle_ok (r : request) (t : table) :
  table_ok t -> table_ok (snd (handle r t)).
Proof.
  intros Hok. destruct r; simpl.
  - assumption.
  - now apply post_ok.
  - unfold UserResource.get, User_query_get.
    destruct (in_int64 i); simpl; try assumption.
    destruct (find_row i t); assumption.
  - now apply put_ok.
  - now apply delete_ok.
Qed.

Lemma run_ok (rs : list request) (t : table) :
  table_ok t -> table_ok (run rs t).
Proof.
  revert t. induction rs as [|r rs IH]; simpl; intros t Hok.
  - assumption.
  - apply IH. now apply handle_ok.
Qed.

Lemma seeded_ok : table_ok seeded.
Proof.
  split; [split|].
  - simpl; repeat constructor; simpl; intuition discriminate.
  - intros u Hu. simpl in Hu.
    repeat (destruct Hu as [<-|Hu]; [reflexivity|]). destruct Hu.
  - simpl; repeat constructor; simpl; intuition discriminate.
Defined.

(** What [User.query.get] returns: the row found, for a key in the 64-bit
    range. *)
Lemma query_get_some_inv (i : Z) (t : table) (u : User) :
  query_get i t = Some u ->
  in_int64 i = true /\ User_query_get i t = inr (Some u) /\ find_row i t = Some u.
Proof.
  unfold query_get, User_query_get.
  destruct (in_int64 i); simpl; [|discriminate].
  intros ->. auto.
Qed.

(** ** What a successful request did *)

Lemma post_created (data : value) (t : table) (body : value) (t' : table) :
  UsersList.post data t = (Return body 201, t') ->
  exists d n e u,
    data = VDict d /\
    dict_lookup d "name" = Some n /\ dict_lookup d "email" = Some e /\
    truthy n = true /\ truthy e = true /\
    insert_row n e t = inr (u, t') /\
    body = msg_data 201 "User created" (to_dict u).
Proof.
  unfold UsersList.post, UsersList.invalid.
  destruct (truthy data) eqn:Hd; simpl; [|discriminate].
  destruct data as [| | | |items|d]; simpl; try discriminate.
  destruct (dict_lookup d "name") as [n|] eqn:Hn; simpl; [|discriminate].
  destruct (truthy n) eqn:Htn; simpl; [|discriminate].
  destruct (dict_lookup d "email") as [e|] eqn:He; simpl; [|discriminate].
  destruct (truthy e) eqn:Hte; simpl; [|discriminate].
  destruct (insert_row n e t) as [x|[u t'']] eqn:Hins.
  - destruct x; discriminate.
  - intros H. inversion H; subst.
    exists d, n, e, u. repeat split; auto.
Qed.

Lemma assignments_dict (d : list (string * value)) :
  UserResource.assignments (VDict d) =
    inr (dict_lookup d "name", dict_lookup d "email").
Proof.
  unfold UserResource.assignments. simpl.
  destruct (dict_lookup d "name"), (dict_lookup d "email"); reflexivity.
Qed.

Lemma put_updated (i : Z) (d : list (string * value)) (t : table)
      (body : value) (t' : table) :
  UserResource.put i (VDict d) t = (Return body 200, t') ->
  update_row i (dict_lookup d "name") (dict_lookup d "email") t = inr t'.
Proof.
  unfold UserResource.put, User_query_get. rewrite assignments_dict. intros H.
  destruct (in_int64 i); cbn [ret] in H; [|discriminate H].
  destruct (find_row i t); [|discriminate H].
  destruct (negb (truthy (VDict d))); [discriminate H|].
  destruct (update_row i (dict_lookup d "name") (dict_lookup d "email") t)
    as [x|t''] eqn:Hupd.
  - destruct x; discriminate H.
  - destruct (find_row i t''); inversion H; subst; reflexivity.
Qed.

(** A request that is not answered 201 or 200 (or that raises) wrote nothing. *)
Lemma post_failure_atomic (data : value) (t : table) (o : outcome) (t' : table) :
  UsersList.post data t = (o, t') ->
  (forall body, o <> Return body 201) -> t' = t.
Proof.
  unfold UsersList.post. intros H Hfail.
  destruct (UsersList.invalid data) as [x|[|]]; try (inversion H; reflexivity).
  destruct (n <- getitem data "name" ;; e <- getitem data "email" ;; ret (n, e))
    as [x|[n e]]; try (inversion H; reflexivity).
  destruct (insert_row n e t) as [x|[u t'']].
  - destruct x; inversion H; reflexivity.
  - inversion H; subst. exfalso. eapply Hfail. reflexivity.
Qed.


Lemma find_row_update (i : Z) (pn pe : option param) (t : table) :
  find_row i (map (fun u => if id u =? i then set_fields pn pe u else u) t) =
  option_map (set_fields pn pe) (find_row i t).
Proof.
  unfold find_row. induction t as [|r t IH]; simpl; [reflexivity|].
  destruct (Z.eqb_spec (id r) i) as [E|E]; simpl.
  - apply Z.eqb_eq in E. now rewrite E.
  - apply Z.eqb_neq in E. now rewrite E.
Qed.

Lemma put_failure_atomic (i : Z) (data : value) (t : table) (o : outcome) (t' : table) :
  UserResource.put i data t = (o, t') ->
  (forall body, o <> Return body 200) -> t' = t.
Proof.
  unfold UserResource.put, User_query_get. intros H Hfail.
  destruct (in_int64 i); cbn [ret] in H; try (inversion H; reflexivity).
  destruct (find_row i t) eqn:Hq; try (inversion H; reflexivity).
  destruct (negb (truthy data)); try (inversion H; reflexivity).
  destruct (UserResource.assignments data) as [x|[n e]]; try (inversion H; reflexivity).
  destruct (update_row i n e t) as [x|t''] eqn:Hupd.
  - destruct x; inversion H; reflexivity.
  - apply update_row_inr in Hupd. cbv zeta in Hupd.
    destruct Hupd as (_ & _ & _ & _ & _ & ->).
    rewrite find_row_update, Hq in H. simpl in H.
    inversion H; subst. exfalso. eapply Hfail. reflexivity.
Qed.

(** ** Duplicate emails, for bodies whose fields are strings *)



(** ** Claims *)

(** C1. Email uniqueness: from a table that satisfies its declared constraints
    (primary key on id, unique email), the table reached by any sequence of
    requests (creates, updates, deletes and reads, successful or not) has no
    two rows with the same email. *)
Theorem email_uniqueness_invariant (rs : list request) (t : table) :
  table_ok t -> NoDup (map email (run rs t)).
Proof.
  intros Hok. exact (proj2 (run_ok rs t Hok)).
Qed.

Lemma email_uniqueness_invariant_witness :
  table_ok seeded /\
  NoDup (map email
    (run [ POST_users (VDict [("name", VStr "Zara Khan"); ("email", VStr "zara.khan@example.com")]);
           PUT_user 2 (VDict [("email", VStr "zara.khan@example.com")]);
           PUT_user 7 (VDict [("email", VStr "zara@example.com")]);
           DELETE_user 3;
           POST_users (VDict [("name", VStr "Rohan"); ("email", VStr "rohan.patel@example.com")]) ]
         seeded)).
Proof.
  split; [exact seeded_ok|].
  apply email_uniqueness_invariant. exact seeded_ok.
Defined.

(** C3. Seed idempotence: on a non-empty table the seed initializer inserts
    nothing and changes nothing; run on the empty table it leaves the six
    sample rows, run a second time it leaves them as they are, and the list of
    all users then has length 6. *)
Theorem seed_idempotent (t : table) :
  t <> [] ->
  create_db_with_samples t = inr t /\
  create_db_with_samples [] = inr seeded /\
  (t1 <- create_db_with_samples [] ;; create_db_with_samples t1) = inr seeded /\
  List.length (query_all seeded) = 6%nat.
Proof.
  intros Hne. split; [|repeat split].
  destruct t as [|u t]; [contradiction|reflexivity].
Qed.

Lemma seed_idempotent_witness :
  seeded <> [] /\
  create_db_with_samples seeded = inr seeded /\
  create_db_with_samples [] = inr seeded /\
  (t1 <- create_db_with_samples [] ;; create_db_with_samples t1) = inr seeded /\
  List.length (query_all seeded) = 6%nat.
Proof.
  split; [discriminate|].
  apply (seed_idempotent seeded). discriminate.
Defined.

(** C6. GET of an id that no row has does not always answer 404: the path
    converter accepts 9223372036854775808, no row of the seeded table has that
    id, and binding it to the SELECT raises OverflowError, which leaves the
    handler; the same holds on every table, and for PUT and DELETE. *)
Theorem get_absent_id_raises :
  ~ In 9223372036854775808 (map id seeded) /\
  UserResource.get 9223372036854775808 seeded = (Raise OverflowError, seeded) /\
  (forall t, UserResource.get 9223372036854775808 t = (Raise OverflowError, t)) /\
  (forall data t,
     UserResource.put 9223372036854775808 data t = (Raise OverflowError, t)) /\
  (forall t, UserResource.delete 9223372036854775808 t = (Raise OverflowError, t)).
Proof.
  split; [simpl; intuition discriminate|].
  repeat split.
Qed.

(** C10. PUT /users/i with the empty object as body, for an id that exists,
    answers 400 "Request body required" and leaves the table as it was. *)
Theorem put_empty_object (i : Z) (t : table) (u : User) :
  query_get i t = Some u ->
  UserResource.put i (VDict []) t = (Return body_required 400, t).
Proof.
  intros Hq. apply query_get_some_inv in Hq. destruct Hq as (_ & Hg & _).
  unfold UserResource.put. now rewrite Hg.
Qed.

Lemma put_empty_object_witness :
  query_get 1 seeded = Some (mkUser 1 "Aarav Kumar" "aarav.kumar@example.com") /\
  UserResource.put 1 (VDict []) seeded = (Return body_required 400, seeded).
Proof.
  split; [reflexivity|].
  apply (put_empty_object 1 seeded (mkUser 1 "Aarav Kumar" "aarav.kumar@example.com")).
  reflexivity.
Defined.

(** C8. Non-emptiness is not kept by the update handler: PUT /users/1 with the
    body [{"name": ""}] succeeds on the seeded table and stores a row whose name
    is the empty string, whereas POST rejects the same empty name. *)
Theorem put_stores_empty_name :
  UserResource.put 1 (VDict [("name", VStr "")]) seeded =
    (Return (msg_data 200 "User updated"
               (to_dict (mkUser 1 "" "aarav.kumar@example.com"))) 200,
     mkUser 1 "" "aarav.kumar@example.com" :: tl seeded) /\
  UsersList.post (VDict [("name", VStr ""); ("email", VStr "new@example.com")]) seeded =
    (Return missing_fields 400, seeded).
Proof.
  split; reflexivity.
Qed.

(** C9. An exception leaves the handler when the body is a non-empty JSON
    value that is not an object: POST /users with the array [[1]] raises
    AttributeError on any table, and PUT /users/1 with the number 5, or with a
    string that contains "name", raises TypeError. *)
Theorem non_object_body_raises :
  (forall t, UsersList.post (VList [VInt 1]) t = (Raise AttributeError, t)) /\
  UserResource.put 1 (VInt 5) seeded = (Raise TypeError, seeded) /\
  UserResource.put 1 (VStr "my name") seeded = (Raise TypeError, seeded).
Proof.
  repeat split.
Qed.

(** C2. The update handler reports a duplicate email where there is none:
    PUT /users/1 with the body [{"name": null}] violates the NOT NULL constraint
    of the name column, the IntegrityError is caught and the answer is 400
    "Email already exists", although the body carries no email and the emails
    of the table are pairwise distinct. *)
Theorem put_null_name_reports_duplicate :
  UserResource.put 1 (VDict [("name", VNone)]) seeded =
    (Return email_exists 400, seeded) /\
  dict_lookup [("name", VNone)] "email" = None /\
  email_taken_by_other 1 "aarav.kumar@example.com" seeded = false.
Proof.
  repeat split.
Qed.

(** C4, as stated, fails for a name that is not a string: POST /users with
    the name 5 (a JSON number) succeeds, and GET of the returned id gives the
    name "5", a string, which is not the number that was posted. *)
Lemma post_number_name_read_back_as_text :
  let t' := seeded ++ [mkUser 7 "5" "five@example.com"] in
  UsersList.post (VDict [("name", VInt 5); ("email", VStr "five@example.com")]) seeded =
    (Return (msg_data 201 "User created"
               (VDict [("id", VInt 7); ("name", VStr "5");
                       ("email", VStr "five@example.com")])) 201, t') /\
  UserResource.get 7 t' =
    (Return (VDict [("status", VInt 200);
                    ("data", VDict [("id", VInt 7); ("name", VStr "5");
                                    ("email", VStr "five@example.com")])]) 200, t') /\
  VStr "5" <> VInt 5.
Proof.
  repeat split. discriminate.
Qed.

(** C4, amended. Round trip for strings: when POST /users with a name [n] and
    an email [e] that are strings succeeds (201), its answer carries a user
    with an id [i], the name [n] and the email [e], and GET /users/i on the
    resulting table answers 200 with the user of id [i], name [n] and email
    [e]. *)
Theorem post_get_roundtrip (d : list (string * value)) (n e : string)
        (t : table) (body : value) (t' : table) :
  dict_lookup d "name" = Some (VStr n) ->
  dict_lookup d "email" = Some (VStr e) ->
  UsersList.post (VDict d) t = (Return body 201, t') ->
  exists i,
    body = msg_data 201 "User created"
             (VDict [("id", VInt i); ("name", VStr n); ("email", VStr e)]) /\
    UserResource.get i t' =
      (Return (VDict [("status", VInt 200);
                      ("data", VDict [("id", VInt i); ("name", VStr n);
                                      ("email", VStr e)])]) 200, t').
Proof.
  intros Hn He Hpost.
  apply post_created in Hpost.
  destruct Hpost as (d0 & n0 & e0 & u & Hd & Hn0 & He0 & _ & _ & Hins & ->).
  inversion Hd; subst d0. rewrite Hn in Hn0. rewrite He in He0.
  inversion Hn0; subst n0. inversion He0; subst e0.
  apply insert_row_inr in Hins.
  destruct Hins as (n' & e' & Hbn & Hbe & _ & Hi & Hun & Hue & ->).
  simpl in Hbn, Hbe. injection Hbn as Hbn. injection Hbe as Hbe.
  rewrite <- Hbn in Hun. rewrite <- Hbe in Hue.
  apply assign_rowid_some in Hi. destruct Hi as (Hr & Hnew & _).
  exists (id u). unfold to_dict. rewrite Hun, Hue. split; [reflexivity|].
  unfold UserResource.get, User_query_get.
  rewrite Hr. cbn [ret]. rewrite (find_row_inserted u t Hnew).
  unfold to_dict. now rewrite Hun, Hue.
Qed.

Lemma post_get_roundtrip_witness :
  let d := [("name", VStr "Zara Khan"); ("email", VStr "zara.khan@example.com")] in
  let t' := seeded ++ [mkUser 7 "Zara Khan" "zara.khan@example.com"] in
  UsersList.post (VDict d) seeded =
    (Return (msg_data 201 "User created"
               (VDict [("id", VInt 7); ("name", VStr "Zara Khan");
                       ("email", VStr "zara.khan@example.com")])) 201, t') /\
  exists i,
    msg_data 201 "User created"
      (VDict [("id", VInt 7); ("name", VStr "Zara Khan");
              ("email", VStr "zara.khan@example.com")]) =
    msg_data 201 "User created"
      (VDict [("id", VInt i); ("name", VStr "Zara Khan");
              ("email", VStr "zara.khan@example.com")]) /\
    UserResource.get i t' =
      (Return (VDict [("status", VInt 200);
                      ("data", VDict [("id", VInt i); ("name", VStr "Zara Khan");
                                      ("email", VStr "zara.khan@example.com")])]) 200, t').
Proof.
  split; [reflexivity|].
  apply (post_get_roundtrip
           [("name", VStr "Zara Khan"); ("email", VStr "zara.khan@example.com")]
           "Zara Khan" "zara.khan@example.com" seeded); reflexivity.
Defined.

(** C5. Partial-update frame: when PUT /users/i succeeds (200) with a body that
    has a name and no email, the table afterwards is the table before with the
    name of the row of id [i] replaced by the stored text of the given name;
    that row keeps its id and email and every other row is unchanged.
    Symmetrically a body with an email and no name replaces only the email. *)
Theorem put_partial_update_frame (i : Z) (d : list (string * value)) (v : value)
        (t : table) (body : value) (t' : table) :
  UserResource.put i (VDict d) t = (Return body 200, t') ->
  (dict_lookup d "name" = Some v -> dict_lookup d "email" = None ->
   exists x, bind_param v = PText x /\
     t' = map (fun r => if id r =? i then mkUser (id r) x (email r) else r) t) /\
  (dict_lookup d "email" = Some v -> dict_lookup d "name" = None ->
   exists x, bind_param v = PText x /\
     t' = map (fun r => if id r =? i then mkUser (id r) (name r) x else r) t).
Proof.
  intros Hput. apply put_updated in Hput.
  split; intros Hv Hnone; rewrite Hv, Hnone in Hput;
    apply update_row_inr in Hput; cbv zeta in Hput; simpl in Hput;
    destruct Hput as (Hu1 & Hu2 & Hn1 & Hn2 & _ & ->);
    destruct (bind_param v) as [|x|]; try discriminate;
    exists x; split; reflexivity.
Qed.

Lemma put_partial_update_frame_witness :
  UserResource.put 2 (VDict [("name", VStr "X")]) seeded =
    (Return (msg_data 200 "User updated"
               (to_dict (mkUser 2 "X" "priya.sharma@example.com"))) 200,
     [ mkUser 1 "Aarav Kumar" "aarav.kumar@example.com";
       mkUser 2 "X" "priya.sharma@example.com";
       mkUser 3 "Rohan Patel" "rohan.patel@example.com";
       mkUser 4 "Sneha Reddy" "sneha.reddy@example.com";
       mkUser 5 "Vikram Singh" "vikram.singh@example.com";
       mkUser 6 "Meera Iyer" "meera.iyer@example.com" ]) /\
  exists x, bind_param (VStr "X") = PText x /\
    [ mkUser 1 "Aarav Kumar" "aarav.kumar@example.com";
      mkUser 2 "X" "priya.sharma@example.com";
      mkUser 3 "Rohan Patel" "rohan.patel@example.com";
      mkUser 4 "Sneha Reddy" "sneha.reddy@example.com";
      mkUser 5 "Vikram Singh" "vikram.singh@example.com";
      mkUser 6 "Meera Iyer" "meera.iyer@example.com" ] =
    map (fun r => if id r =? 2 then mkUser (id r) x (email r) else r) seeded.
Proof.
  split; [reflexivity|].
  refine (proj1 (put_partial_update_frame 2 [("name", VStr "X")] (VStr "X") seeded
                   _ _ _) _ _); reflexivity.
Defined.




(** * Further properties of the handlers *)

(** ** Helper lemmas *)

Lemma find_row_in (t : table) (u : User) :
  NoDup (map id t) -> In u t -> find_row (id u) t = Some u.
Proof.
  unfold find_row. induction t as [|r t IH]; simpl; intros Hnd Hin; [tauto|].
  inversion Hnd as [|? ? Hnotin Hnd']; subst.
  destruct Hin as [->|Hin].
  - now rewrite Z.eqb_refl.
  - destruct (Z.eqb_spec (id r) (id u)) as [E|E].
    + exfalso. apply Hnotin. rewrite E. now apply in_map.
    + now apply IH.
Qed.

Lemma delete_row_absent (i : Z) (t : table) :
  ~ In i (map id t) -> delete_row i t = t.
Proof.
  unfold delete_row. induction t as [|r t IH]; simpl; intros H; [reflexivity|].
  destruct (Z.eqb_spec (id r) i) as [E|E]; simpl.
  - exfalso. apply H. now left.
  - f_equal. apply IH. intros Hin. apply H. now right.
Qed.

Lemma delete_row_in (i : Z) (t : table) (r : User) :
  In r (delete_row i t) <-> In r t /\ id r <> i.
Proof.
  unfold delete_row. rewrite filter_In, negb_true_iff, Z.eqb_neq. tauto.
Qed.

Lemma delete_row_length (i : Z) (t : table) :
  NoDup (map id t) -> In i (map id t) ->
  List.length t = S (List.length (delete_row i t)).
Proof.
  induction t as [|r t IH]; simpl; intros Hnd Hin; [tauto|].
  inversion Hnd as [|? ? Hnotin Hnd']; subst.
  destruct (Z.eqb_spec (id r) i) as [E|E]; simpl.
  - f_equal. fold (delete_row i t). rewrite delete_row_absent; [reflexivity|].
    now rewrite <- E.
  - f_equal. apply IH; [assumption|]. destruct Hin; [contradiction|assumption].
Qed.

Lemma delete_inserted (u : User) (t : table) :
  ~ In (id u) (map id t) -> delete_row (id u) (insert_by_rowid u t) = t.
Proof.
  unfold delete_row. induction t as [|r t IH]; simpl; intros H.
  - now rewrite Z.eqb_refl.
  - assert (Hr : (id r =? id u) = false).
    { apply Z.eqb_neq. intros E. apply H. now left. }
    assert (Ht : filter (fun x => negb (id x =? id u)) t = t).
    { apply (delete_row_absent (id u) t). intros Hin. apply H. now right. }
    destruct (id u <? id r); simpl.
    + rewrite Z.eqb_refl, Hr. simpl. now rewrite Ht.
    + rewrite Hr. simpl. f_equal. apply IH. intros Hin. apply H. now right.
Qed.

Lemma max_rowid_in (t : table) (m : Z) :
  max_rowid t = Some m -> exists r, In r t /\ id r = m.
Proof.
  revert m. induction t as [|r t IH]; simpl; intros m H; [discriminate|].
  destruct (max_rowid t) as [m'|].
  - inversion H; subst. destruct (IH m' eq_refl) as (r' & Hr' & E).
    destruct (Z.max_spec (id r) m') as [[_ ->]|[_ ->]].
    + exists r'. auto.
    + exists r. auto.
  - inversion H; subst. exists r. auto.
Qed.

(** While every rowid is a 64-bit integer below [b], the next rowid is a
    64-bit integer that is at most [b]. *)
Lemma next_rowid_in_range (t : table) (b : Z) :
  (forall r, In r t -> in_int64 (id r) = true) ->
  (forall r, In r t -> id r < b) ->
  0 < b <= int64_max ->
  in_int64 (next_rowid t) = true /\ next_rowid t <= b.
Proof.
  intros Hrange Hb Hbb. unfold next_rowid.
  destruct (max_rowid t) as [m|] eqn:Hm.
  - destruct (max_rowid_in t m Hm) as (r & Hr & <-).
    pose proof (Hb r Hr). pose proof (proj1 (in_int64_true _) (Hrange r Hr)).
    split; [apply in_int64_true|]; lia.
  - split; [apply in_int64_true; unfold int64_min; simpl|]; lia.
Qed.

Lemma max_rowid_app (t : table) (u : User) :
  max_rowid (t ++ [u]) =
  Some (match max_rowid t with None => id u | Some m => Z.max m (id u) end).
Proof.
  induction t as [|r t IH]; simpl; [reflexivity|].
  rewrite IH. destruct (max_rowid t); f_equal; lia.
Qed.

Lemma next_rowid_app (t : table) (u : User) :
  id u = next_rowid t -> next_rowid (t ++ [u]) = id u + 1.
Proof.
  unfold next_rowid. rewrite max_rowid_app.
  destruct (max_rowid t); intros ->; lia.
Qed.

Lemma find_row_update_other (i j : Z) (pn pe : option param) (t : table) :
  j <> i ->
  find_row j (map (fun u => if id u =? i then set_fields pn pe u else u) t) =
  find_row j t.
Proof.
  intros Hne. unfold find_row. induction t as [|r t IH]; simpl; [reflexivity|].
  destruct (Z.eqb_spec (id r) i) as [E|E]; simpl.
  - destruct (Z.eqb_spec (id r) j) as [E'|E']; [congruence|exact IH].
  - destruct (id r =? j); [reflexivity|exact IH].
Qed.

Lemma find_row_delete_other (i j : Z) (t : table) :
  j <> i -> find_row j (delete_row i t) = find_row j t.
Proof.
  intros Hne. unfold find_row, delete_row.
  induction t as [|r t IH]; simpl; [reflexivity|].
  destruct (Z.eqb_spec (id r) i) as [E|E]; simpl.
  - destruct (Z.eqb_spec (id r) j) as [E'|E']; [congruence|exact IH].
  - destruct (id r =? j); [reflexivity|exact IH].
Qed.

Lemma set_fields_none (u : User) : set_fields None None u = u.
Proof. destruct u; reflexivity. Qed.

Lemma update_none_identity (i : Z) (t : table) :
  map (fun u => if id u =? i then set_fields None None u else u) t = t.
Proof.
  rewrite <- (map_id t) at 2. apply map_ext. intros u.
  destruct (id u =? i); [apply set_fields_none|reflexivity].
Qed.

Lemma post_table (data : value) (t : table) :
  snd (UsersList.post data t) = t \/
  exists n e u, insert_row n e t = inr (u, snd (UsersList.post data t)).
Proof.
  unfold UsersList.post.
  destruct (UsersList.invalid data) as [x|[|]]; simpl; auto.
  destruct (n <- getitem data "name" ;; e <- getitem data "email" ;; ret (n, e))
    as [x|[n e]]; simpl; auto.
  destruct (insert_row n e t) as [x|[u t']] eqn:Hins.
  - destruct x; auto.
  - right. exists n, e, u. exact Hins.
Qed.

Lemma put_table (i : Z) (data : value) (t : table) :
  snd (UserResource.put i data t) = t \/
  exists pn pe, snd (UserResource.put i data t) =
    map (fun u => if id u =? i then set_fields pn pe u else u) t.
Proof.
  unfold UserResource.put, User_query_get.
  destruct (in_int64 i); simpl; auto.
  destruct (find_row i t); simpl; auto.
  destruct (negb (truthy data)); simpl; auto.
  destruct (UserResource.assignments data) as [x|[n e]]; simpl; auto.
  destruct (update_row i n e t) as [x|t'] eqn:Hupd.
  - destruct x; auto.
  - apply update_row_inr in Hupd. cbv zeta in Hupd.
    destruct Hupd as (_ & _ & _ & _ & _ & ->).
    right. eexists _, _. destruct (find_row i _); reflexivity.
Qed.

(** ** Invariants over request sequences *)

(** X1. Primary key: from a table that satisfies its declared constraints, the
    table reached by any sequence of requests has pairwise distinct ids. *)
Theorem primary_key_invariant (rs : list request) (t : table) :
  table_ok t -> NoDup (map id (run rs t)).
Proof.
  intros Hok. exact (proj1 (proj1 (run_ok rs t Hok))).
Qed.

Lemma primary_key_invariant_witness :
  table_ok seeded /\
  NoDup (map id
    (run [ DELETE_user 6;
           POST_users (VDict [("name", VStr "Zara Khan"); ("email", VStr "zara.khan@example.com")]);
           PUT_user 6 (VDict [("name", VStr "Z")]) ]
         seeded)).
Proof.
  split; [exact seeded_ok|].
  apply primary_key_invariant. exact seeded_ok.
Defined.

Lemma handle_ids_positive (r : request) (t : table) :
  ids_positive t -> ids_positive (snd (handle r t)).
Proof.
  intros Hpos. destruct r as [|data|i|i data|i]; simpl.
  - assumption.
  - destruct (post_table data t) as [->|(n & e & u & Hins)]; [assumption|].
    apply insert_row_fresh in Hins.
    destruct Hins as (_ & _ & Hu & ->).
    intros r Hr. apply insert_by_rowid_in in Hr. destruct Hr as [->|Hr].
    + now apply Hu.
    + now apply Hpos.
  - unfold UserResource.get, User_query_get.
    destruct (in_int64 i); simpl; [|assumption].
    destruct (find_row i t); assumption.
  - destruct (put_table i data t) as [->|(pn & pe & ->)]; [assumption|].
    intros r Hr. apply in_map_iff in Hr. destruct Hr as (x & <- & Hx).
    destruct (id x =? i); [simpl|]; now apply Hpos.
  - unfold UserResource.delete, User_query_get.
    destruct (in_int64 i); simpl; [|assumption].
    destruct (find_row i t); simpl; [|assumption].
    intros r Hr. apply delete_row_in in Hr. now apply Hpos.
Qed.

(** X2. Positive ids: when every id of the table is positive, every id of the
    table reached by any sequence of requests is positive; in particular every
    id POST assigns. *)
Theorem ids_positive_invariant (rs : list request) (t : table) :
  ids_positive t -> ids_positive (run rs t).
Proof.
  revert t. induction rs as [|r rs IH]; simpl; intros t Hpos.
  - assumption.
  - apply IH. now apply handle_ids_positive.
Qed.

Lemma seeded_positive : ids_positive seeded.
Proof.
  intros u Hu. simpl in Hu.
  repeat (destruct Hu as [<-|Hu]; [reflexivity|]). destruct Hu.
Defined.

Lemma ids_positive_invariant_witness :
  ids_positive seeded /\
  ids_positive
    (run [ POST_users (VDict [("name", VStr "Zara Khan"); ("email", VStr "zara.khan@example.com")]);
           DELETE_user 1 ]
         seeded).
Proof.
  split; [exact seeded_positive|].
  apply ids_positive_invariant. exact seeded_positive.
Defined.

(** X3. Only successes write: a request whose outcome is neither a 200 nor a
    201 response (a 400 or 404 response, or an exception) leaves the table
    exactly as it was. *)
Theorem failed_request_writes_nothing (r : request) (t : table)
        (o : outcome) (t' : table) :
  handle r t = (o, t') ->
  (forall body, o <> Return body 200) ->
  (forall body, o <> Return body 201) ->
  t' = t.
Proof.
  intros H H200 H201. destruct r as [|data|i|i data|i]; simpl in H.
  - inversion H; reflexivity.
  - eapply post_failure_atomic; eassumption.
  - unfold UserResource.get, User_query_get in H.
    destruct (in_int64 i); cbn [ret] in H; [|inversion H; reflexivity].
    destruct (find_row i t); inversion H; reflexivity.
  - eapply put_failure_atomic; eassumption.
  - unfold UserResource.delete, User_query_get in H.
    destruct (in_int64 i); cbn [ret] in H; [|inversion H; reflexivity].
    destruct (find_row i t); inversion H; subst; [|reflexivity].
    exfalso. eapply H200. reflexivity.
Qed.

Lemma failed_request_writes_nothing_witness :
  handle (POST_users (VDict [("name", VStr "Dup"); ("email", VStr "meera.iyer@example.com")]))
         seeded = (Return email_exists 400, seeded) /\
  seeded = seeded.
Proof.
  split; [reflexivity|].
  apply (failed_request_writes_nothing
           (POST_users (VDict [("name", VStr "Dup"); ("email", VStr "meera.iyer@example.com")]))
           seeded (Return email_exists 400) seeded);
    [reflexivity | intros body H; discriminate H | intros body H; discriminate H].
Defined.

(** ** Lookup by id *)

(** X4. Not found, exactly: GET, PUT (whatever the body) and DELETE of
    /users/i answer 404 "User not found" if and only if [i] is a 64-bit
    integer and no row of the table has id [i]; for an [i] outside the 64-bit
    range all three raise OverflowError and leave the table unchanged. *)
Theorem not_found_exact (i : Z) (t : table) :
  (fst (UserResource.get i t) = Return not_found 404 <->
   in_int64 i = true /\ ~ In i (map id t)) /\
  (forall data,
     fst (UserResource.put i data t) = Return not_found 404 <->
     in_int64 i = true /\ ~ In i (map id t)) /\
  (fst (UserResource.delete i t) = Return not_found 404 <->
   in_int64 i = true /\ ~ In i (map id t)) /\
  (in_int64 i = false ->
   UserResource.get i t = (Raise OverflowError, t) /\
   (forall data, UserResource.put i data t = (Raise OverflowError, t)) /\
   UserResource.delete i t = (Raise OverflowError, t)).
Proof.
  split; [|split; [|split]].
  - rewrite <- find_row_none. unfold UserResource.get, User_query_get.
    destruct (in_int64 i); cbn [ret fst]; [|split; [discriminate|intros [H _]; discriminate H]].
    destruct (find_row i t); simpl; split; intros H; try tauto; try discriminate H.
    destruct H as [_ H]. discriminate H.
  - intros data. rewrite <- find_row_none. unfold UserResource.put, User_query_get.
    destruct (in_int64 i); cbn [ret fst]; [|split; [discriminate|intros [H _]; discriminate H]].
    destruct (find_row i t) eqn:Hq; cbn [fst]; [|tauto].
    split; [|intros [_ H]; discriminate H].
    destruct (negb (truthy data)); [discriminate|].
    destruct (UserResource.assignments data) as [x|[n e]]; [discriminate|].
    destruct (update_row i n e t) as [x|t']; [destruct x; discriminate|].
    destruct (find_row i t'); discriminate.
  - rewrite <- find_row_none. unfold UserResource.delete, User_query_get.
    destruct (in_int64 i); cbn [ret fst]; [|split; [discriminate|intros [H _]; discriminate H]].
    destruct (find_row i t); simpl; split; intros H; try tauto; try discriminate H.
    destruct H as [_ H]. discriminate H.
  - intros Hr. unfold UserResource.get, UserResource.put, UserResource.delete,
      User_query_get. rewrite Hr. repeat split.
Qed.

Lemma not_found_exact_witness :
  (in_int64 9999 = true /\ ~ In 9999 (map id seeded)) /\
  fst (UserResource.put 9999 (VInt 5) seeded) = Return not_found 404 /\
  in_int64 (2 ^ 63) = false /\
  UserResource.get (2 ^ 63) seeded = (Raise OverflowError, seeded).
Proof.
  assert (H : in_int64 9999 = true /\ ~ In 9999 (map id seeded)).
  { split; [reflexivity|]. simpl. intuition discriminate. }
  split; [exact H|]. split.
  - apply (proj1 (proj2 (not_found_exact 9999 seeded)) (VInt 5)). exact H.
  - split; [reflexivity|].
    apply (proj2 (proj2 (proj2 (not_found_exact (2 ^ 63) seeded)))). reflexivity.
Defined.

(** X5. Lookup of a stored row: in a table with pairwise distinct ids, GET
    /users/<id of a row> answers 200 with the representation of that very row
    and leaves the table unchanged. *)
Theorem get_returns_row (t : table) (u : User) :
  table_ok t -> In u t ->
  UserResource.get (id u) t =
    (Return (VDict [("status", VInt 200); ("data", to_dict u)]) 200, t).
Proof.
  intros [[Hid Hrange] _] Hin. unfold UserResource.get, User_query_get.
  now rewrite (Hrange u Hin), (find_row_in t u Hid Hin).
Qed.

Lemma get_returns_row_witness :
  table_ok seeded /\
  In (mkUser 4 "Sneha Reddy" "sneha.reddy@example.com") seeded /\
  UserResource.get 4 seeded =
    (Return (VDict [("status", VInt 200);
                    ("data", to_dict (mkUser 4 "Sneha Reddy" "sneha.reddy@example.com"))]) 200,
     seeded).
Proof.
  split; [exact seeded_ok|]. split; [simpl; tauto|].
  apply (get_returns_row seeded (mkUser 4 "Sneha Reddy" "sneha.reddy@example.com")).
  - exact seeded_ok.
  - simpl. tauto.
Defined.

(** ** Delete *)

(** X6. DELETE removes exactly one row: for an id that a row has, in a table
    with pairwise distinct ids, DELETE /users/i answers 200 "User deleted"; the
    rows afterwards are the rows before whose id is not [i], so the table is
    one row shorter, and a second DELETE /users/i answers 404 and changes
    nothing. *)
Theorem delete_removes_only_that_row (i : Z) (t : table) (u : User) :
  table_ok t -> query_get i t = Some u ->
  exists t',
    UserResource.delete i t = (Return (msg 200 "User deleted") 200, t') /\
    (forall r, In r t' <-> In r t /\ id r <> i) /\
    List.length t = S (List.length t') /\
    UserResource.delete i t' = (Return not_found 404, t').
Proof.
  intros [[Hid _] _] Hq. exists (delete_row i t).
  apply query_get_some_inv in Hq. destruct Hq as (Hr & Hg & Hq).
  split; [|split; [|split]].
  - unfold UserResource.delete. now rewrite Hg.
  - intros r. apply delete_row_in.
  - apply delete_row_length; [assumption|].
    apply find_row_some in Hq. destruct Hq as [Hin <-]. now apply in_map.
  - unfold UserResource.delete, User_query_get.
    rewrite Hr. cbn [ret]. now rewrite find_row_deleted.
Qed.

Lemma delete_removes_only_that_row_witness :
  exists t',
    UserResource.delete 2 seeded = (Return (msg 200 "User deleted") 200, t') /\
    (forall r, In r t' <-> In r seeded /\ id r <> 2) /\
    List.length seeded = S (List.length t') /\
    UserResource.delete 2 t' = (Return not_found 404, t').
Proof.
  apply (delete_removes_only_that_row 2 seeded
           (mkUser 2 "Priya Sharma" "priya.sharma@example.com")).
  - exact seeded_ok.
  - reflexivity.
Defined.

(** X22. Delete then get: when DELETE /users/i succeeds (200), the GET
    /users/i that follows answers 404 "User not found"; and GET of a 64-bit id
    that no row has answers 404 with that message. *)
Theorem delete_then_get (i : Z) (t : table) :
  (forall body t',
      UserResource.delete i t = (Return body 200, t') ->
      UserResource.get i t' = (Return not_found 404, t')) /\
  (in_int64 i = true -> ~ In i (map id t) ->
   UserResource.get i t = (Return not_found 404, t)).
Proof.
  split.
  - intros body t'. unfold UserResource.delete, UserResource.get, User_query_get.
    intros H.
    destruct (in_int64 i); cbn [ret] in *; [|discriminate H].
    destruct (find_row i t) eqn:Hq; inversion H; subst.
    now rewrite find_row_deleted.
  - intros Hr Hq. apply find_row_none in Hq.
    unfold UserResource.get, User_query_get. now rewrite Hr, Hq.
Qed.

Lemma delete_then_get_witness :
  UserResource.delete 3 seeded =
    (Return (msg 200 "User deleted") 200, delete_row 3 seeded) /\
  UserResource.get 3 (delete_row 3 seeded) =
    (Return not_found 404, delete_row 3 seeded) /\
  UserResource.get 9999 seeded = (Return not_found 404, seeded).
Proof.
  split; [reflexivity|]. split.
  - apply (proj1 (delete_then_get 3 seeded) (msg 200 "User deleted")). reflexivity.
  - apply (proj2 (delete_then_get 9999 seeded)); [reflexivity|].
    simpl. intuition discriminate.
Defined.

(** ** Create *)

(** X7. Create then delete: when POST /users creates a user, DELETE of the id
    it returned answers 200 and gives back exactly the table before the
    POST. *)
Theorem post_then_delete_restores (data : value) (t : table)
        (body : value) (t' : table) :
  UsersList.post data t = (Return body 201, t') ->
  exists u,
    body = msg_data 201 "User created" (to_dict u) /\
    UserResource.delete (id u) t' = (Return (msg 200 "User deleted") 200, t).
Proof.
  intros Hpost. apply post_created in Hpost.
  destruct Hpost as (d & n & e & u & _ & _ & _ & _ & _ & Hins & ->).
  apply insert_row_fresh in Hins.
  destruct Hins as (Hr & Hnew & _ & ->).
  exists u. split; [reflexivity|].
  unfold UserResource.delete, User_query_get.
  rewrite Hr. cbn [ret].
  rewrite (find_row_inserted u t Hnew), (delete_inserted u t Hnew).
  reflexivity.
Qed.

Lemma post_then_delete_restores_witness :
  exists u,
    msg_data 201 "User created"
      (to_dict (mkUser 7 "Zara Khan" "zara.khan@example.com")) =
    msg_data 201 "User created" (to_dict u) /\
    UserResource.delete (id u)
      (seeded ++ [mkUser 7 "Zara Khan" "zara.khan@example.com"]) =
      (Return (msg 200 "User deleted") 200, seeded).
Proof.
  apply (post_then_delete_restores
           (VDict [("name", VStr "Zara Khan"); ("email", VStr "zara.khan@example.com")])
           seeded).
  reflexivity.
Defined.

(** X8. The same POST twice: when POST /users creates a user, the same body
    posted again on the resulting table is answered 400 "Email already exists"
    and that table is left unchanged. *)
Theorem post_twice_duplicate (data : value) (t : table)
        (body : value) (t' : table) :
  UsersList.post data t = (Return body 201, t') ->
  UsersList.post data t' = (Return email_exists 400, t').
Proof.
  intros Hpost. apply post_created in Hpost.
  destruct Hpost as (d & n & e & u & -> & Hn & He & Htn & Hte & Hins & _).
  apply insert_row_inr in Hins.
  destruct Hins as (n' & e' & Hbn & Hbe & _ & _ & _ & Hue & ->).
  unfold UsersList.post, UsersList.invalid.
  assert (Hd : truthy (VDict d) = true).
  { destruct d; [discriminate Hn|reflexivity]. }
  rewrite Hd. simpl. rewrite Hn. simpl. rewrite Htn. simpl.
  rewrite He. simpl. rewrite Hte. simpl.
  unfold insert_row. rewrite Hbn, Hbe.
  assert (Htaken : email_taken e' (insert_by_rowid u t) = true).
  { apply email_taken_true. exists u. split; [|assumption].
    apply insert_by_rowid_in. now left. }
  now rewrite Htaken.
Qed.

Lemma post_twice_duplicate_witness :
  let zara := VDict [("name", VStr "Zara Khan"); ("email", VStr "zara.khan@example.com")] in
  let t' := seeded ++ [mkUser 7 "Zara Khan" "zara.khan@example.com"] in
  UsersList.post zara t' = (Return email_exists 400, t').
Proof.
  apply (post_twice_duplicate
           (VDict [("name", VStr "Zara Khan"); ("email", VStr "zara.khan@example.com")])
           seeded
           (msg_data 201 "User created"
              (to_dict (mkUser 7 "Zara Khan" "zara.khan@example.com")))).
  reflexivity.
Defined.

(** X9. Consecutive ids: on a table that satisfies its constraints and whose
    ids are all below 2^63 - 2, when two POST /users requests in a row both
    create a user, the id of the second user is the id of the first plus
    one. *)
Theorem consecutive_post_ids (d1 d2 : value) (t : table)
        (b1 b2 : value) (t1 t2 : table) :
  table_ok t ->
  (forall r, In r t -> id r < int64_max - 1) ->
  UsersList.post d1 t = (Return b1 201, t1) ->
  UsersList.post d2 t1 = (Return b2 201, t2) ->
  exists u1 u2,
    b1 = msg_data 201 "User created" (to_dict u1) /\
    b2 = msg_data 201 "User created" (to_dict u2) /\
    id u2 = id u1 + 1.
Proof.
  intros [[_ Hrange] _] Hroom H1 H2.
  apply post_created in H1.
  destruct H1 as (? & ? & ? & u1 & _ & _ & _ & _ & _ & Hins1 & ->).
  apply post_created in H2.
  destruct H2 as (? & ? & ? & u2 & _ & _ & _ & _ & _ & Hins2 & ->).
  apply insert_row_inr in Hins1.
  destruct Hins1 as (? & ? & _ & _ & _ & Hu1 & _ & _ & ->).
  apply insert_row_inr in Hins2.
  destruct Hins2 as (? & ? & _ & _ & _ & Hu2 & _).
  exists u1, u2. repeat split.
  assert (Hb : 0 < int64_max - 1 <= int64_max) by (unfold int64_max; simpl; lia).
  destruct (next_rowid_in_range t (int64_max - 1) Hrange Hroom Hb) as [Hr1 Hle].
  rewrite (assign_rowid_next t Hr1) in Hu1. inversion Hu1 as [E1].
  assert (Hlast : insert_by_rowid u1 t = t ++ [u1]).
  { apply insert_by_rowid_last. intros r Hr. rewrite <- E1.
    now apply next_rowid_above. }
  rewrite Hlast in Hu2.
  assert (Hn2 : next_rowid (t ++ [u1]) = id u1 + 1)
    by (apply next_rowid_app; now rewrite <- E1).
  assert (Hr2 : in_int64 (next_rowid (t ++ [u1])) = true).
  { rewrite Hn2, <- E1. apply in_int64_true.
    apply in_int64_true in Hr1. lia. }
  rewrite (assign_rowid_next _ Hr2), Hn2 in Hu2. injection Hu2 as E2. lia.
Qed.

Lemma consecutive_post_ids_witness :
  exists u1 u2,
    msg_data 201 "User created" (to_dict (mkUser 7 "Zara Khan" "zara.khan@example.com")) =
      msg_data 201 "User created" (to_dict u1) /\
    msg_data 201 "User created" (to_dict (mkUser 8 "Omar Ali" "omar.ali@example.com")) =
      msg_data 201 "User created" (to_dict u2) /\
    id u2 = id u1 + 1.
Proof.
  apply (consecutive_post_ids
           (VDict [("name", VStr "Zara Khan"); ("email", VStr "zara.khan@example.com")])
           (VDict [("name", VStr "Omar Ali"); ("email", VStr "omar.ali@example.com")])
           seeded _ _
           (seeded ++ [mkUser 7 "Zara Khan" "zara.khan@example.com"])
           (seeded ++ [mkUser 7 "Zara Khan" "zara.khan@example.com";
                       mkUser 8 "Omar Ali" "omar.ali@example.com"]));
    try reflexivity.
  - exact seeded_ok.
  - intros r Hr. simpl in Hr.
    repeat (destruct Hr as [<-|Hr]; [reflexivity|]). destruct Hr.
Defined.

(** ** Listing *)

(** X10. The list after a create: on a table that satisfies its constraints
    and whose ids are all below 2^63 - 1, when POST /users creates a user, GET
    /users on the resulting table answers 200 with the representations of the
    rows that were there, in their order, followed by the representation of the
    created user, and leaves the table unchanged. *)
Theorem list_after_post (data : value) (t : table) (body : value) (t' : table) :
  table_ok t ->
  (forall r, In r t -> id r < int64_max) ->
  UsersList.post data t = (Return body 201, t') ->
  exists u,
    body = msg_data 201 "User created" (to_dict u) /\
    UsersList.get t' =
      (Return (VDict [("status", VInt 200);
                      ("data", VList (map to_dict t ++ [to_dict u]))]) 200, t').
Proof.
  intros [[_ Hrange] _] Hroom Hpost. apply post_created in Hpost.
  destruct Hpost as (d & n & e & u & _ & _ & _ & _ & _ & Hins & ->).
  apply insert_row_inr in Hins.
  destruct Hins as (n' & e' & _ & _ & _ & Hu & _ & _ & ->).
  exists u. split; [reflexivity|].
  assert (Hb : 0 < int64_max <= int64_max) by (unfold int64_max; simpl; lia).
  destruct (next_rowid_in_range t int64_max Hrange Hroom Hb) as [Hr _].
  rewrite (assign_rowid_next t Hr) in Hu. inversion Hu as [E].
  rewrite insert_by_rowid_last
    by (intros r Hin; rewrite <- E; now apply next_rowid_above).
  unfold UsersList.get, query_all. now rewrite map_app.
Qed.

Lemma list_after_post_witness :
  exists u,
    msg_data 201 "User created"
      (to_dict (mkUser 7 "Zara Khan" "zara.khan@example.com")) =
      msg_data 201 "User created" (to_dict u) /\
    UsersList.get (seeded ++ [mkUser 7 "Zara Khan" "zara.khan@example.com"]) =
      (Return (VDict [("status", VInt 200);
                      ("data", VList (map to_dict seeded ++ [to_dict u]))]) 200,
       seeded ++ [mkUser 7 "Zara Khan" "zara.khan@example.com"]).
Proof.
  apply (list_after_post
           (VDict [("name", VStr "Zara Khan"); ("email", VStr "zara.khan@example.com")])
           seeded).
  - exact seeded_ok.
  - intros r Hr. simpl in Hr.
    repeat (destruct Hr as [<-|Hr]; [reflexivity|]). destruct Hr.
  - reflexivity.
Defined.

(** ** Update *)

Lemma email_taken_by_other_update (i : Z) (e : string) (pn pe : option param)
      (t : table) :
  email_taken_by_other i e
    (map (fun u => if id u =? i then set_fields pn pe u else u) t) =
  email_taken_by_other i e t.
Proof.
  unfold email_taken_by_other. induction t as [|r t IH]; simpl; [reflexivity|].
  rewrite IH. f_equal.
  destruct (id r =? i) eqn:E; simpl; now rewrite E.
Qed.

Lemma update_twice (i : Z) (pn pe : option param) (t : table) :
  map (fun u => if id u =? i then set_fields pn pe u else u)
      (map (fun u => if id u =? i then set_fields pn pe u else u) t) =
  map (fun u => if id u =? i then set_fields pn pe u else u) t.
Proof.
  rewrite map_map. apply map_ext. intros u.
  destruct (Z.eqb_spec (id u) i) as [E|E]; simpl.
  - apply Z.eqb_eq in E. rewrite E. unfold set_fields. simpl.
    destruct pn as [[| |]|], pe as [[| |]|]; reflexivity.
  - apply Z.eqb_neq in E. now rewrite E.
Qed.

Lemma update_row_idempotent (i : Z) (n e : option value) (t t' : table) :
  update_row i n e t = inr t' -> update_row i n e t' = inr t'.
Proof.
  intros H. apply update_row_inr in H. cbv zeta in H.
  destruct H as (Hu1 & Hu2 & Hn1 & Hn2 & Hcol & ->).
  unfold update_row. rewrite Hu1, Hu2, Hn1, Hn2. simpl.
  assert (Hcol' : collides i (option_map bind_param e)
            (map (fun u => if id u =? i
                           then set_fields (option_map bind_param n)
                                           (option_map bind_param e) u
                           else u) t) = false).
  { destruct (option_map bind_param e) as [[|s|]|]; simpl in *; try reflexivity.
    now rewrite email_taken_by_other_update. }
  rewrite Hcol'. unfold ret. now rewrite update_twice.
Qed.

(** X11. PUT is idempotent: when PUT /users/i succeeds (200), the same request
    on the resulting table succeeds with the same answer and leaves that table
    unchanged. *)
Theorem put_idempotent (i : Z) (data : value) (t : table)
        (body : value) (t' : table) :
  UserResource.put i data t = (Return body 200, t') ->
  UserResource.put i data t' = (Return body 200, t').
Proof.
  unfold UserResource.put, User_query_get. intros H.
  destruct (in_int64 i); cbn [ret] in *; [|discriminate H].
  destruct (find_row i t); [|discriminate H].
  destruct (negb (truthy data)); [discriminate H|].
  destruct (UserResource.assignments data) as [x|[n e]]; [discriminate H|].
  destruct (update_row i n e t) as [x|t1] eqn:Hupd; [destruct x; discriminate H|].
  destruct (find_row i t1) as [user|] eqn:Hq1; [|discriminate H].
  inversion H; subst.
  rewrite Hq1, (update_row_idempotent _ _ _ _ _ Hupd), Hq1. reflexivity.
Qed.

Lemma put_idempotent_witness :
  let data := VDict [("name", VStr "X"); ("email", VStr "x@example.com")] in
  let t' := mkUser 1 "X" "x@example.com" :: tl seeded in
  UserResource.put 1 data t' =
    (Return (msg_data 200 "User updated" (to_dict (mkUser 1 "X" "x@example.com"))) 200, t').
Proof.
  apply (put_idempotent 1
           (VDict [("name", VStr "X"); ("email", VStr "x@example.com")]) seeded).
  reflexivity.
Defined.

(** X12. PUT never touches ids: whatever the id and the body, and whether the
    request succeeds or not, the table after PUT has the same ids in the same
    order (so the same number of rows) as before. *)
Theorem put_preserves_ids (i : Z) (data : value) (t : table) :
  map id (snd (UserResource.put i data t)) = map id t.
Proof.
  destruct (put_table i data t) as [->|(pn & pe & ->)]; [reflexivity|].
  apply map_id_update.
Qed.

(** X13. Update then get: when PUT /users/i succeeds, its answer carries the
    representation of a row that GET /users/i returns on the resulting
    table. *)
Theorem put_then_get (i : Z) (data : value) (t : table)
        (body : value) (t' : table) :
  UserResource.put i data t = (Return body 200, t') ->
  exists u,
    body = msg_data 200 "User updated" (to_dict u) /\ id u = i /\
    UserResource.get i t' =
      (Return (VDict [("status", VInt 200); ("data", to_dict u)]) 200, t').
Proof.
  unfold UserResource.put, UserResource.get, User_query_get. intros H.
  destruct (in_int64 i); cbn [ret] in *; [|discriminate H].
  destruct (find_row i t); [|discriminate H].
  destruct (negb (truthy data)); [discriminate H|].
  destruct (UserResource.assignments data) as [x|[n e]]; [discriminate H|].
  destruct (update_row i n e t) as [x|t1]; [destruct x; discriminate H|].
  destruct (find_row i t1) as [user|] eqn:Hq1; [|discriminate H].
  inversion H; subst.
  exists user. split; [reflexivity|]. split.
  - now apply find_row_some in Hq1.
  - now rewrite Hq1.
Qed.

Lemma put_then_get_witness :
  exists u,
    msg_data 200 "User updated" (to_dict (mkUser 1 "Aarav Kumar" "a@example.com")) =
      msg_data 200 "User updated" (to_dict u) /\ id u = 1 /\
    UserResource.get 1 (mkUser 1 "Aarav Kumar" "a@example.com" :: tl seeded) =
      (Return (VDict [("status", VInt 200); ("data", to_dict u)]) 200,
       mkUser 1 "Aarav Kumar" "a@example.com" :: tl seeded).
Proof.
  apply (put_then_get 1 (VDict [("email", VStr "a@example.com")]) seeded).
  reflexivity.
Defined.

(** X14. Other users are unaffected: for [j] different from [i], GET /users/j
    gives the same answer after PUT /users/i (whatever the body) and after
    DELETE /users/i as before; and a user that GET /users/j finds is still
    found, unchanged, after any POST /users. *)
Theorem other_users_unaffected (i j : Z) (t : table) :
  j <> i ->
  (forall data,
     fst (UserResource.get j (snd (UserResource.put i data t))) =
     fst (UserResource.get j t)) /\
  fst (UserResource.get j (snd (UserResource.delete i t))) =
  fst (UserResource.get j t) /\
  (forall data u,
     query_get j t = Some u ->
     fst (UserResource.get j (snd (UsersList.post data t))) =
     fst (UserResource.get j t)).
Proof.
  intros Hne. unfold UserResource.get, User_query_get. split; [|split].
  - intros data.
    destruct (put_table i data t) as [->|(pn & pe & ->)]; [reflexivity|].
    rewrite (find_row_update_other i j pn pe t Hne).
    destruct (in_int64 j); cbn [ret]; [destruct (find_row j t)|]; reflexivity.
  - unfold UserResource.delete, User_query_get.
    destruct (in_int64 i); cbn [ret snd]; [|reflexivity].
    destruct (find_row i t); cbn [snd]; [|reflexivity].
    rewrite (find_row_delete_other i j t Hne).
    destruct (in_int64 j); cbn [ret]; [destruct (find_row j t)|]; reflexivity.
  - intros data u Hq.
    apply query_get_some_inv in Hq. destruct Hq as (_ & _ & Hq).
    destruct (post_table data t) as [->|(n & e & u' & Hins)]; [reflexivity|].
    apply insert_row_fresh in Hins.
    destruct Hins as (_ & Hnew & _ & ->).
    rewrite find_row_insert_other;
      [destruct (in_int64 j); cbn [ret]; [destruct (find_row j t)|]; reflexivity|].
    intros E. apply Hnew. rewrite <- E.
    apply find_row_some in Hq. destruct Hq as [Hin <-]. now apply in_map.
Qed.

Lemma other_users_unaffected_witness :
  fst (UserResource.get 2 (snd (UserResource.delete 1 seeded))) =
  fst (UserResource.get 2 seeded).
Proof.
  apply (proj1 (proj2 (other_users_unaffected 1 2 seeded ltac:(discriminate)))).
Defined.

(** X15. A PUT whose body carries neither field: when the body is truthy and
    neither "name" nor "email" is [in] it (an object with other keys only, a
    non-empty array without these two strings, a string without these
    substrings), PUT /users/i for an existing id answers 200 "User updated"
    with the row as it was and leaves the table unchanged. *)
Theorem put_without_fields_noop (i : Z) (data : value) (t : table) (u : User) :
  query_get i t = Some u ->
  truthy data = true ->
  UserResource.assignments data = inr (None, None) ->
  UserResource.put i data t =
    (Return (msg_data 200 "User updated" (to_dict u)) 200, t).
Proof.
  intros Hq Ht Ha.
  apply query_get_some_inv in Hq. destruct Hq as (_ & Hg & Hq).
  unfold UserResource.put.
  rewrite Hg, Ht, Ha. simpl negb. cbv iota.
  unfold update_row. simpl.
  rewrite update_none_identity, Hq. reflexivity.
Qed.

Lemma put_without_fields_noop_witness :
  UserResource.put 3 (VList [VInt 1; VStr "x"]) seeded =
    (Return (msg_data 200 "User updated"
               (to_dict (mkUser 3 "Rohan Patel" "rohan.patel@example.com"))) 200,
     seeded) /\
  UserResource.put 3 (VDict [("age", VInt 30)]) seeded =
    (Return (msg_data 200 "User updated"
               (to_dict (mkUser 3 "Rohan Patel" "rohan.patel@example.com"))) 200,
     seeded).
Proof.
  split.
  - apply (put_without_fields_noop 3 (VList [VInt 1; VStr "x"]) seeded); reflexivity.
  - apply (put_without_fields_noop 3 (VDict [("age", VInt 30)]) seeded); reflexivity.
Defined.

(** ** Responses *)

(** X16. Status and code agree: whenever a handler returns, the body is a dict
    whose "status" entry is the returned HTTP code, and the code is one of 200,
    201, 400 and 404. *)
Theorem response_status_matches_code (r : request) (t : table)
        (body : value) (code : Z) :
  fst (handle r t) = Return body code ->
  method_get body "status" = inr (VInt code) /\
  In code [200; 201; 400; 404].
Proof.
  destruct r as [|data|i|i data|i]; simpl.
  - intros H. inversion H; subst. simpl. tauto.
  - unfold UsersList.post.
    destruct (UsersList.invalid data) as [x|[|]]; simpl; intros H.
    + discriminate H.
    + inversion H; subst. simpl. tauto.
    + destruct (n <- getitem data "name" ;; e <- getitem data "email" ;; ret (n, e))
        as [x|[n e]]; [discriminate H|].
      destruct (insert_row n e t) as [x|[u t']]; [destruct x|];
        simpl in H; inversion H; subst; simpl; tauto.
  - unfold UserResource.get, User_query_get.
    destruct (in_int64 i); cbn [ret]; [|discriminate].
    destruct (find_row i t); simpl; intros H; inversion H; subst; simpl; tauto.
  - unfold UserResource.put, User_query_get.
    destruct (in_int64 i); cbn [ret]; [|discriminate].
    destruct (find_row i t); simpl; intros H;
      [|inversion H; subst; simpl; tauto].
    destruct (negb (truthy data)); [inversion H; subst; simpl; tauto|].
    destruct (UserResource.assignments data) as [x|[n e]]; [discriminate H|].
    destruct (update_row i n e t) as [x|t']; [destruct x|];
      simpl in H; try (inversion H; subst; simpl; tauto).
    destruct (find_row i t'); simpl in H; inversion H; subst; simpl; tauto.
  - unfold UserResource.delete, User_query_get.
    destruct (in_int64 i); cbn [ret]; [|discriminate].
    destruct (find_row i t); simpl; intros H; inversion H; subst; simpl; tauto.
Qed.

Lemma response_status_matches_code_witness :
  method_get email_exists "status" = inr (VInt 400) /\
  In 400 [200; 201; 400; 404].
Proof.
  apply (response_status_matches_code
           (PUT_user 1 (VDict [("email", VStr "meera.iyer@example.com")])) seeded).
  reflexivity.
Defined.

Lemma to_dict_inj (u v : User) : to_dict u = to_dict v -> u = v.
Proof.
  destruct u, v. unfold to_dict. simpl. intros H. inversion H. reflexivity.
Qed.

(** X17. GET /users lists exactly the rows: it answers 200 with one
    representation per row, in table order; a user's representation is in the
    list if and only if the user is a row of the table (no two users share a
    representation), and the table is unchanged. *)
Theorem users_list_exact (t : table) :
  exists l,
    UsersList.get t =
      (Return (VDict [("status", VInt 200); ("data", VList l)]) 200, t) /\
    List.length l = List.length t /\
    (forall u, In (to_dict u) l <-> In u t) /\
    (forall k u, nth_error t k = Some u -> nth_error l k = Some (to_dict u)).
Proof.
  exists (map to_dict t). split; [reflexivity|]. split; [apply length_map|]. split.
  - intros u. rewrite in_map_iff. split.
    + intros (v & Hv & Hin). apply to_dict_inj in Hv. now subst.
    + intros Hin. exists u. auto.
  - intros k u Hk. now apply map_nth_error.
Qed.

(** X18. A body that is not an object: POST /users with a truthy body that is
    not a dict (a non-empty array or string, a non-zero number, true) raises
    AttributeError and leaves the table unchanged. *)
Theorem post_non_object_raises (data : value) (t : table) :
  truthy data = true ->
  (forall d, data <> VDict d) ->
  UsersList.post data t = (Raise AttributeError, t).
Proof.
  intros Ht Hnd. unfold UsersList.post, UsersList.invalid. rewrite Ht. simpl.
  destruct data as [| | | | |d]; try reflexivity.
  exfalso. now apply (Hnd d).
Qed.

Lemma post_non_object_raises_witness :
  UsersList.post (VStr "name") seeded = (Raise AttributeError, seeded).
Proof.
  apply (post_non_object_raises (VStr "name") seeded).
  - reflexivity.
  - intros d H. discriminate H.
Defined.

(** ** Witnesses for the duplicate-email lemmas *)



Lemma users_list_exact_witness :
  exists l,
    UsersList.get seeded =
      (Return (VDict [("status", VInt 200); ("data", VList l)]) 200, seeded) /\
    List.length l = List.length seeded /\
    (forall u, In (to_dict u) l <-> In u seeded) /\
    (forall k u, nth_error seeded k = Some u -> nth_error l k = Some (to_dict u)).
Proof.
  apply (users_list_exact seeded).
Defined.

(** ** Startup *)

(** X21. Seeding never fails: on every table the seed initializer returns
    normally with a non-empty table; the bulk insert runs only on the empty
    table, where the six sample emails are pairwise distinct.  The table it
    returns satisfies the declared constraints, and has positive ids, whenever
    the table it was given does. *)
Theorem seed_never_fails (t : table) :
  exists t',
    create_db_with_samples t = inr t' /\
    t' <> [] /\
    (table_ok t -> table_ok t') /\
    (ids_positive t -> ids_positive t').
Proof.
  destruct t as [|u t].
  - exists seeded. split; [reflexivity|]. split; [discriminate|]. split; intros _.
    + exact seeded_ok.
    + exact seeded_positive.
  - exists (u :: t). split; [reflexivity|]. split; [discriminate|]. tauto.
Qed.

Lemma seed_never_fails_witness :
  exists t',
    create_db_with_samples [] = inr t' /\
    t' <> [] /\
    (table_ok [] -> table_ok t') /\
    (ids_positive [] -> ids_positive t').
Proof.
  apply (seed_never_fails []).
Defined.
